(** * SynchronizedSamplePool: a bounded pool of recycled profiler samples

    Shallow embedding of
    [ddtrace/internal/datadog/profiling/dd_wrapper/include/synchronized_sample_pool.hpp]
    and of the two member functions [take_sample] and [return_sample] of
    [synchronized_sample_pool.cpp], followed by the properties the
    specification states about them.

    The pool stores raw [Sample*] pointers in a vendored
    [moodycamel::ConcurrentQueue].  The methods are written in a small state
    monad over the object's two fields; every call of a queue primitive is
    logged, so that the number of primitives a method issues can be stated. *)

From Stdlib Require Import List PeanoNat NArith Lia Bool Permutation.
Import ListNotations.

Local Open Scope N_scope.

(** ** Handles *)

(** [Sample*]: the pool never dereferences the pointer, so only the address
    matters.  Address [0] is [nullptr]. *)
Definition SamplePtr : Type := N.

Definition nullptr : SamplePtr := 0.

(** [size_t] comparison [a >= b] as the source writes it. *)
Definition size_t_ge (a b : N) : bool := b <=? a.

(** ** The vendored queue *)

Module moodycamel.

(** Modelled from the spec: [vendored/concurrentqueue.h] (the
    [moodycamel::ConcurrentQueue<Sample*>] the pool is built on) is not
    among the sources.  The spec describes it as a multi-producer,
    multi-consumer queue of handles; used from one thread it is the list of
    the handles it holds, oldest first. *)
Definition ConcurrentQueue : Type := list SamplePtr.

(** Modelled from the spec: [ConcurrentQueue(size_t capacity)], absent with
    the vendored header.  The argument only sizes the initial allocation;
    the queue starts with no element. *)
Definition make (initial_capacity : N) : ConcurrentQueue := [].

(** Modelled from the spec: [bool try_dequeue(T& item)], absent with the
    vendored header.  Removes one handle without blocking, if there is one,
    and writes it to [item]; otherwise [item] keeps its value and the call
    reports [false]. *)
Definition try_dequeue (item : SamplePtr) (q : ConcurrentQueue)
  : bool * SamplePtr * ConcurrentQueue :=
  match q with
  | [] => (false, item, [])
  | x :: q' => (true, x, q')
  end.

(** Modelled from the spec: [bool enqueue(T const& item)], absent with the
    vendored header.  Stores the handle; storage for it is not modelled, so
    the call reports [true]. *)
Definition enqueue (item : SamplePtr) (q : ConcurrentQueue)
  : bool * ConcurrentQueue :=
  (true, q ++ [item]).

(** Modelled from the spec: [size_t size_approx() const], absent with the
    vendored header.  The occupancy of the queue; with no other thread at
    work the estimate is the exact count. *)
Definition size_approx (q : ConcurrentQueue) : N := N.of_nat (length q).

End moodycamel.

(** ** The pool *)

Module Datadog.

(** The private fields of [class SynchronizedSamplePool]. *)
Record SynchronizedSamplePool : Type := mkPool {
  pool : moodycamel.ConcurrentQueue;
  capacity : N
}.

(** The queue primitives a method may call on [pool]. *)
Inductive QueueCall : Type :=
| CallTryDequeue
| CallSizeApprox
| CallEnqueue (item : SamplePtr).

(** A member function: reads and updates the object, returns a value and
    the queue primitives it called, in order. *)
Definition Method (A : Type) : Type :=
  SynchronizedSamplePool -> A * SynchronizedSamplePool * list QueueCall.

Definition ret {A : Type} (a : A) : Method A :=
  fun this => (a, this, []).

Definition bind {A B : Type} (m : Method A) (k : A -> Method B) : Method B :=
  fun this =>
    let '(a, this1, calls1) := m this in
    let '(b, this2, calls2) := k a this1 in
    (b, this2, calls1 ++ calls2).

Declare Scope method_scope.
Delimit Scope method_scope with method.
Notation "x <- m ;; k" := (bind m (fun x => k))
  (at level 61, m at next level, right associativity) : method_scope.
Notation "' pat <- m ;; k" := (bind m (fun x => match x with pat => k end))
  (at level 61, pat pattern, m at next level, right associativity)
  : method_scope.
Local Open Scope method_scope.

(** [pool.try_dequeue(item)], [item] passed by reference. *)
Definition pool_try_dequeue (item : SamplePtr) : Method (bool * SamplePtr) :=
  fun this =>
    let '(ok, item', q') := moodycamel.try_dequeue item (pool this) in
    ((ok, item'), mkPool q' (capacity this), [CallTryDequeue]).

(** [pool.size_approx()]. *)
Definition pool_size_approx : Method N :=
  fun this => (moodycamel.size_approx (pool this), this, [CallSizeApprox]).

(** [pool.enqueue(item)]. *)
Definition pool_enqueue (item : SamplePtr) : Method bool :=
  fun this =>
    let '(ok, q') := moodycamel.enqueue item (pool this) in
    (ok, mkPool q' (capacity this), [CallEnqueue item]).

(** Read of the field [capacity]. *)
Definition get_capacity : Method N :=
  fun this => (capacity this, this, []).

(** [SynchronizedSamplePool(size_t _capacity)]. *)
Definition SynchronizedSamplePool_new (_capacity : N) : SynchronizedSamplePool :=
  {| pool := moodycamel.make _capacity; capacity := _capacity |}.

(** [std::optional<Sample*> SynchronizedSamplePool::take_sample()]. *)
Definition take_sample : Method (option SamplePtr) :=
  let sample := nullptr in
  '(_, sample) <- pool_try_dequeue sample ;;
  if sample =? nullptr then ret None
  else ret (Some sample).

(** [std::optional<Sample*> SynchronizedSamplePool::return_sample(Sample* sample)]. *)
Definition return_sample (sample : SamplePtr) : Method (option SamplePtr) :=
  size <- pool_size_approx ;;
  cap <- get_capacity ;;
  if size_t_ge size cap then ret (Some sample)
  else
    _ <- pool_enqueue sample ;;
    ret None.

(** The value and the object a method leaves. *)
Definition run {A : Type} (m : Method A) (this : SynchronizedSamplePool)
  : A * SynchronizedSamplePool :=
  let '(a, this', _) := m this in (a, this').

(** The queue primitives a method called. *)
Definition calls {A : Type} (m : Method A) (this : SynchronizedSamplePool)
  : list QueueCall :=
  snd (m this).

(** Number of handles resting in the pool. *)
Definition occupancy (this : SynchronizedSamplePool) : N :=
  N.of_nat (length (pool this)).

End Datadog.

Import Datadog.

(** ** Sequences of calls from one thread *)

(** One call of the public interface. *)
Inductive Call : Type :=
| Take
| Return (sample : SamplePtr).

Definition step (c : Call) (this : SynchronizedSamplePool)
  : option SamplePtr * SynchronizedSamplePool :=
  match c with
  | Take => run take_sample this
  | Return sample => run (return_sample sample) this
  end.

(** Runs the calls in order; the results come in call order. *)
Fixpoint run_calls (cs : list Call) (this : SynchronizedSamplePool)
  : list (option SamplePtr) * SynchronizedSamplePool :=
  match cs with
  | [] => ([], this)
  | c :: cs' =>
      let '(r, this1) := step c this in
      let '(rs, this2) := run_calls cs' this1 in
      (r :: rs, this2)
  end.

(** The retention bound of the data model. *)
Definition bounded (this : SynchronizedSamplePool) : Prop :=
  occupancy this <= capacity this.

(** The answer a pool of capacity 0 gives to a call. *)
Definition zero_capacity_answer (c : Call) : option SamplePtr :=
  match c with
  | Take => None
  | Return sample => Some sample
  end.

(** The handles a list of answers carries. *)
Fixpoint handles (rs : list (option SamplePtr)) : list SamplePtr :=
  match rs with
  | [] => []
  | Some h :: rs' => h :: handles rs'
  | None :: rs' => handles rs'
  end.

(** The handles the accepted [return_sample] calls of a run stored: the
    arguments of the returns that were answered [nullopt]. *)
Fixpoint accepted (cs : list Call) (rs : list (option SamplePtr))
  : list SamplePtr :=
  match cs, rs with
  | Return h :: cs', None :: rs' => h :: accepted cs' rs'
  | _ :: cs', _ :: rs' => accepted cs' rs'
  | _, _ => []
  end.

(** The handles the [take_sample] calls of a run handed out. *)
Fixpoint taken (cs : list Call) (rs : list (option SamplePtr))
  : list SamplePtr :=
  match cs, rs with
  | Take :: cs', Some h :: rs' => h :: taken cs' rs'
  | _ :: cs', _ :: rs' => taken cs' rs'
  | _, _ => []
  end.

(** A call that does not pass [nullptr] to [return_sample]. *)
Definition returns_valid_handle (c : Call) : Prop :=
  match c with
  | Take => True
  | Return sample => sample <> nullptr
  end.

(** A run in which no [return_sample] is given a handle that is resting in
    the pool at the time of the call. *)
Fixpoint returns_only_checked_out (cs : list Call) (this : SynchronizedSamplePool)
  : Prop :=
  match cs with
  | [] => True
  | c :: cs' =>
      match c with
      | Take => True
      | Return sample => ~ In sample (pool this)
      end
      /\ returns_only_checked_out cs' (snd (step c this))
  end.

(** * Equations of the two methods *)

Section Equations.

Variables (q : moodycamel.ConcurrentQueue) (cap : N).

Lemma run_take_sample_nil :
  run take_sample (mkPool [] cap) = (None, mkPool [] cap).
Proof. reflexivity. Qed.

Lemma run_take_sample_cons (x : SamplePtr) :
  run take_sample (mkPool (x :: q) cap)
  = (if x =? nullptr then None else Some x, mkPool q cap).
Proof.
  unfold run, take_sample, bind, pool_try_dequeue; simpl.
  destruct (x =? nullptr); reflexivity.
Qed.

Lemma calls_take_sample (this : SynchronizedSamplePool) :
  calls take_sample this = [CallTryDequeue].
Proof.
  destruct this as [[|x p] c]; unfold calls, take_sample, bind, pool_try_dequeue; simpl.
  - reflexivity.
  - destruct (x =? nullptr); reflexivity.
Qed.

Lemma return_sample_full (sample : SamplePtr) (this : SynchronizedSamplePool) :
  capacity this <= occupancy this ->
  return_sample sample this = (Some sample, this, [CallSizeApprox]).
Proof.
  intros Hfull.
  unfold return_sample, bind, pool_size_approx, get_capacity, size_t_ge,
    moodycamel.size_approx.
  fold (occupancy this).
  apply N.leb_le in Hfull. rewrite Hfull. reflexivity.
Qed.

Lemma return_sample_room (sample : SamplePtr) (this : SynchronizedSamplePool) :
  occupancy this < capacity this ->
  return_sample sample this
  = (None, mkPool (pool this ++ [sample]) (capacity this),
     [CallSizeApprox; CallEnqueue sample]).
Proof.
  intros Hroom.
  unfold return_sample, bind, pool_size_approx, get_capacity, size_t_ge,
    moodycamel.size_approx.
  fold (occupancy this).
  apply N.leb_gt in Hroom. rewrite Hroom. reflexivity.
Qed.

End Equations.

Lemma occupancy_snoc (p : moodycamel.ConcurrentQueue) (x : SamplePtr) (c : N) :
  occupancy (mkPool (p ++ [x]) c) = occupancy (mkPool p c) + 1.
Proof.
  unfold occupancy; simpl. rewrite length_app; simpl. lia.
Qed.

Lemma full_or_room (this : SynchronizedSamplePool) :
  {capacity this <= occupancy this} + {occupancy this < capacity this}.
Proof.
  destruct (capacity this <=? occupancy this) eqn:E.
  - left. now apply N.leb_le.
  - right. now apply N.leb_gt.
Qed.

(** * Properties of [return_sample] *)

(** C3. Rejection at capacity: when the occupancy is at or above the capacity,
    [return_sample h] answers with exactly the handle [h] it was given, leaves
    the object (stored handles and capacity) as it was, and never calls
    [enqueue]: its only queue primitive is the size check. *)
Theorem return_sample_rejects_at_capacity
  (h : SamplePtr) (this : SynchronizedSamplePool) :
  capacity this <= occupancy this ->
  run (return_sample h) this = (Some h, this)
  /\ calls (return_sample h) this = [CallSizeApprox].
Proof.
  intros Hfull. unfold run, calls.
  rewrite (return_sample_full h this Hfull). split; reflexivity.
Qed.

Lemma return_sample_rejects_at_capacity_witness :
  capacity (mkPool [5; 6] 2) <= occupancy (mkPool [5; 6] 2)
  /\ run (return_sample 9) (mkPool [5; 6] 2) = (Some 9, mkPool [5; 6] 2)
  /\ calls (return_sample 9) (mkPool [5; 6] 2) = [CallSizeApprox].
Proof.
  split.
  - vm_compute. discriminate.
  - apply (return_sample_rejects_at_capacity 9 (mkPool [5; 6] 2)).
    vm_compute. discriminate.
Defined.

(** C4. Acceptance below capacity: when the occupancy is strictly below the
    capacity, [return_sample h] answers [nullopt] (no handle goes back to the
    caller) and stores [h]: the new contents are the old ones followed by
    [h], so the occupancy grows by one and [h] is among the stored handles;
    the capacity is unchanged. *)
Theorem return_sample_accepts_below_capacity
  (h : SamplePtr) (this : SynchronizedSamplePool) :
  occupancy this < capacity this ->
  exists this' : SynchronizedSamplePool,
    run (return_sample h) this = (None, this')
    /\ pool this' = pool this ++ [h]
    /\ capacity this' = capacity this
    /\ occupancy this' = occupancy this + 1
    /\ In h (pool this').
Proof.
  intros Hroom.
  exists (mkPool (pool this ++ [h]) (capacity this)).
  unfold run. rewrite (return_sample_room h this Hroom).
  repeat split.
  - destruct this as [p c]. apply occupancy_snoc.
  - simpl. apply in_or_app. right. now left.
Qed.

Lemma return_sample_accepts_below_capacity_witness :
  occupancy (mkPool [5] 2) < capacity (mkPool [5] 2)
  /\ exists this' : SynchronizedSamplePool,
       run (return_sample 9) (mkPool [5] 2) = (None, this')
       /\ pool this' = pool (mkPool [5] 2) ++ [9]
       /\ capacity this' = capacity (mkPool [5] 2)
       /\ occupancy this' = occupancy (mkPool [5] 2) + 1
       /\ In 9 (pool this').
Proof.
  split.
  - reflexivity.
  - apply (return_sample_accepts_below_capacity 9 (mkPool [5] 2)).
    reflexivity.
Defined.

(** * Properties of [take_sample] *)

(** C5. Empty-pool take: on a pool that holds no handle, [take_sample] answers
    [nullopt] (the absent optional, not an optional holding [nullptr] or any
    other handle) and leaves the object as it was. *)
Theorem take_sample_empty (this : SynchronizedSamplePool) :
  occupancy this = 0 ->
  run take_sample this = (None, this)
  /\ fst (run take_sample this) <> Some nullptr.
Proof.
  intros Hempty. destruct this as [[|x p] c].
  - rewrite run_take_sample_nil. split; [reflexivity | discriminate].
  - unfold occupancy in Hempty; simpl in Hempty. lia.
Qed.

Lemma take_sample_empty_witness :
  occupancy (SynchronizedSamplePool_new 4) = 0
  /\ run take_sample (SynchronizedSamplePool_new 4)
     = (None, SynchronizedSamplePool_new 4)
  /\ fst (run take_sample (SynchronizedSamplePool_new 4)) <> Some nullptr.
Proof.
  split.
  - reflexivity.
  - apply (take_sample_empty (SynchronizedSamplePool_new 4)). reflexivity.
Defined.

(** * Round trips *)

Lemma eqb_nullptr_false (h : SamplePtr) : h <> nullptr -> (h =? nullptr) = false.
Proof. intros Hh. now apply N.eqb_neq. Qed.

(** C2, as stated, fails at the null handle.  On an empty pool of capacity 1,
    [return_sample nullptr] answers success and stores the pointer; the take
    that follows removes it and answers [nullopt], not the handle. *)
Lemma round_trip_fails_for_nullptr :
  pool (SynchronizedSamplePool_new 1) = []
  /\ 1 <= capacity (SynchronizedSamplePool_new 1)
  /\ run (return_sample nullptr) (SynchronizedSamplePool_new 1)
     = (None, mkPool [nullptr] 1)
  /\ run take_sample (mkPool [nullptr] 1) = (None, mkPool [] 1)
  /\ ~ (forall (h : SamplePtr) (this : SynchronizedSamplePool),
          pool this = [] -> 1 <= capacity this ->
          exists this1 this2 : SynchronizedSamplePool,
            run (return_sample h) this = (None, this1)
            /\ run take_sample this1 = (Some h, this2)).
Proof.
  split; [reflexivity|]. split; [vm_compute; discriminate|].
  split; [reflexivity|]. split; [reflexivity|].
  intros Hall.
  destruct (Hall nullptr (SynchronizedSamplePool_new 1)) as (s1 & s2 & H1 & H2).
  - reflexivity.
  - vm_compute; discriminate.
  - vm_compute in H1. injection H1 as <-. vm_compute in H2. discriminate.
Qed.

(** C2, amended. Round-trip reuse for handles other than [nullptr]: on an
    empty pool of capacity at least 1, [return_sample h] answers success and
    the pool holds exactly [h]; the take that follows answers exactly [h] and
    leaves the pool as it was before the return. *)
Theorem round_trip_reuse (h : SamplePtr) (this : SynchronizedSamplePool) :
  h <> nullptr ->
  pool this = [] ->
  1 <= capacity this ->
  run (return_sample h) this = (None, mkPool [h] (capacity this))
  /\ run take_sample (mkPool [h] (capacity this)) = (Some h, this).
Proof.
  intros Hh Hempty Hcap. destruct this as [p c]; simpl in *; subst p.
  split.
  - unfold run. rewrite return_sample_room; [reflexivity|].
    unfold occupancy; simpl. lia.
  - rewrite run_take_sample_cons, (eqb_nullptr_false h Hh). reflexivity.
Qed.

Lemma round_trip_reuse_witness :
  42 <> nullptr
  /\ pool (SynchronizedSamplePool_new 1) = []
  /\ 1 <= capacity (SynchronizedSamplePool_new 1)
  /\ run (return_sample 42) (SynchronizedSamplePool_new 1)
     = (None, mkPool [42] (capacity (SynchronizedSamplePool_new 1)))
  /\ run take_sample (mkPool [42] (capacity (SynchronizedSamplePool_new 1)))
     = (Some 42, SynchronizedSamplePool_new 1).
Proof.
  split; [discriminate|]. split; [reflexivity|].
  split; [vm_compute; discriminate|].
  apply (round_trip_reuse 42 (SynchronizedSamplePool_new 1)).
  - discriminate.
  - reflexivity.
  - vm_compute; discriminate.
Defined.

(** C10. The null handle at the public interface.  [return_sample] treats
    [nullptr] as any other argument: below capacity it answers success and
    stores it.  [take_sample] on a pool whose next handle is [nullptr] removes
    that entry and answers [nullopt].  So on an empty pool, returning
    [nullptr] and taking again yields two [nullopt] answers and the pool is
    empty again: the entry was consumed and never handed out. *)
Theorem nullptr_is_stored_then_swallowed (this : SynchronizedSamplePool) :
  occupancy this < capacity this ->
  run (return_sample nullptr) this
  = (None, mkPool (pool this ++ [nullptr]) (capacity this))
  /\ (forall (rest : moodycamel.ConcurrentQueue),
        run take_sample (mkPool (nullptr :: rest) (capacity this))
        = (None, mkPool rest (capacity this)))
  /\ (pool this = [] ->
      run_calls [Return nullptr; Take] this = ([None; None], this)
      /\ fst (run take_sample (snd (run (return_sample nullptr) this)))
         <> Some nullptr).
Proof.
  intros Hroom.
  assert (Hret : run (return_sample nullptr) this
                 = (None, mkPool (pool this ++ [nullptr]) (capacity this))).
  { unfold run. now rewrite (return_sample_room nullptr this Hroom). }
  split; [exact Hret|]. split.
  - intros rest. now rewrite run_take_sample_cons.
  - intros Hempty. destruct this as [p c]; simpl in Hempty; subst p.
    simpl in Hret. unfold run_calls, step. rewrite Hret.
    rewrite run_take_sample_cons. simpl. split; [reflexivity | discriminate].
Qed.

Lemma nullptr_is_stored_then_swallowed_witness :
  occupancy (SynchronizedSamplePool_new 3) < capacity (SynchronizedSamplePool_new 3)
  /\ run (return_sample nullptr) (SynchronizedSamplePool_new 3)
     = (None, mkPool [nullptr] 3)
  /\ run take_sample (mkPool [nullptr; 7] 3) = (None, mkPool [7] 3)
  /\ run_calls [Return nullptr; Take] (SynchronizedSamplePool_new 3)
     = ([None; None], SynchronizedSamplePool_new 3).
Proof.
  assert (Hroom : occupancy (SynchronizedSamplePool_new 3)
                  < capacity (SynchronizedSamplePool_new 3)) by reflexivity.
  destruct (nullptr_is_stored_then_swallowed (SynchronizedSamplePool_new 3) Hroom)
    as (Hret & Htake & Hboth).
  split; [exact Hroom|]. split; [exact Hret|]. split; [exact (Htake [7])|].
  exact (proj1 (Hboth eq_refl)).
Defined.

(** * Sequences of calls *)

Lemma step_capacity (c : Call) (this : SynchronizedSamplePool) :
  capacity (snd (step c this)) = capacity this.
Proof.
  destruct c as [|h]; simpl.
  - destruct this as [[|x p] cap].
    + now rewrite run_take_sample_nil.
    + now rewrite run_take_sample_cons.
  - unfold run. destruct (full_or_room this) as [Hfull | Hroom].
    + now rewrite return_sample_full.
    + now rewrite return_sample_room.
Qed.

Lemma take_sample_bounded (this : SynchronizedSamplePool) :
  bounded this -> bounded (snd (run take_sample this)).
Proof.
  unfold bounded. destruct this as [[|x p] cap].
  - now rewrite run_take_sample_nil.
  - rewrite run_take_sample_cons. unfold occupancy; simpl. lia.
Qed.

Lemma return_sample_bounded (h : SamplePtr) (this : SynchronizedSamplePool) :
  bounded this -> bounded (snd (run (return_sample h) this)).
Proof.
  unfold bounded, run. intros Hb.
  destruct (full_or_room this) as [Hfull | Hroom].
  - now rewrite return_sample_full.
  - rewrite return_sample_room by assumption. simpl.
    destruct this as [p cap]. rewrite occupancy_snoc. simpl in *. lia.
Qed.

Lemma step_bounded (c : Call) (this : SynchronizedSamplePool) :
  bounded this -> bounded (snd (step c this)).
Proof.
  destruct c as [|h]; simpl.
  - apply take_sample_bounded.
  - apply return_sample_bounded.
Qed.

Lemma run_calls_bounded (cs : list Call) (this : SynchronizedSamplePool) :
  bounded this -> bounded (snd (run_calls cs this)).
Proof.
  revert this. induction cs as [|c cs IH]; intros this Hb; simpl.
  - exact Hb.
  - pose proof (step_bounded c this Hb) as Hb1.
    destruct (step c this) as [r this1]; simpl in Hb1.
    specialize (IH this1 Hb1).
    destruct (run_calls cs this1) as [rs this2]. exact IH.
Qed.

Lemma run_calls_capacity (cs : list Call) (this : SynchronizedSamplePool) :
  capacity (snd (run_calls cs this)) = capacity this.
Proof.
  revert this. induction cs as [|c cs IH]; intros this; simpl.
  - reflexivity.
  - pose proof (step_capacity c this) as Hc.
    destruct (step c this) as [r this1]; simpl in Hc.
    specialize (IH this1).
    destruct (run_calls cs this1) as [rs this2]; simpl in *. congruence.
Qed.

Lemma new_bounded (C : N) : bounded (SynchronizedSamplePool_new C).
Proof. unfold bounded, occupancy; simpl. lia. Qed.

(** C6. Bounded retention, one thread.  The freshly constructed pool is within
    its bound; [take_sample] and [return_sample] each keep a pool within its
    bound; hence for every capacity [C] and every sequence of calls run from
    the empty pool, after every prefix of the sequence the number of stored
    handles is at most [C]. *)
Theorem bounded_retention (C : N) (cs : list Call) :
  (forall n : nat,
      occupancy (snd (run_calls (firstn n cs) (SynchronizedSamplePool_new C)))
      <= C)
  /\ (forall this : SynchronizedSamplePool,
        bounded this -> bounded (snd (run take_sample this)))
  /\ (forall (h : SamplePtr) (this : SynchronizedSamplePool),
        bounded this -> bounded (snd (run (return_sample h) this))).
Proof.
  split; [|split].
  - intros n.
    pose proof (run_calls_bounded (firstn n cs) _ (new_bounded C)) as Hb.
    unfold bounded in Hb. now rewrite run_calls_capacity in Hb.
  - exact take_sample_bounded.
  - exact return_sample_bounded.
Qed.

Lemma bounded_retention_witness :
  occupancy (snd (run_calls (firstn 3 [Return 1; Return 2; Return 3; Take])
                            (SynchronizedSamplePool_new 2))) <= 2
  /\ bounded (mkPool [1; 2] 2)
  /\ bounded (snd (run (return_sample 3) (mkPool [1; 2] 2)))
  /\ bounded (snd (run take_sample (mkPool [1; 2] 2))).
Proof.
  assert (Hb : bounded (mkPool [1; 2] 2)) by (vm_compute; discriminate).
  destruct (bounded_retention 2 [Return 1; Return 2; Return 3; Take])
    as (Hprefix & Htake & Hreturn).
  split; [exact (Hprefix 3%nat)|]. split; [exact Hb|].
  split; [exact (Hreturn 3 _ Hb) | exact (Htake _ Hb)].
Defined.

(** C1, as stated, fails when [A] is the null handle.  With capacity 2,
    returning [nullptr], [2] and [3] answers success, success and rejection
    as the scenario says, but the first take removes the stored [nullptr] and
    answers [nullopt]; the second take yields [2] and the third answers
    [nullopt].  So the scenario does not hold for all handles [A], [B],
    [C]. *)
Lemma scenario_fails_for_nullptr :
  run_calls [Return nullptr; Return 2; Return 3; Take; Take; Take]
            (SynchronizedSamplePool_new 2)
  = ([None; None; Some 3; None; Some 2; None], mkPool [] 2)
  /\ ~ (forall A B C : SamplePtr,
          exists x y : SamplePtr,
            ((x = A /\ y = B) \/ (x = B /\ y = A))
            /\ run_calls [Return A; Return B; Return C; Take; Take; Take]
                         (SynchronizedSamplePool_new 2)
               = ([None; None; Some C; Some x; Some y; None], mkPool [] 2)).
Proof.
  split; [reflexivity|].
  intros Hall. destruct (Hall nullptr 2 3) as (x & y & _ & Hrun).
  vm_compute in Hrun. discriminate.
Qed.

(** C1, amended. The capacity-2 scenario, for handles [A] and [B] other than [nullptr]
    and any handle [C].  From the empty pool: returning [A] succeeds (pool
    [A]); returning [B] succeeds (pool [A; B]); returning [C] is rejected
    with [C] handed back and the pool still [A; B]; the first take yields one
    of [A], [B] and leaves the other one in the pool; the second take yields
    that other one and empties the pool; the third take answers [nullopt]. *)
Theorem scenario_capacity_two (A B C : SamplePtr) :
  A <> nullptr ->
  B <> nullptr ->
  let this0 := SynchronizedSamplePool_new 2 in
  run_calls [Return A] this0 = ([None], mkPool [A] 2)
  /\ run_calls [Return A; Return B] this0 = ([None; None], mkPool [A; B] 2)
  /\ run_calls [Return A; Return B; Return C] this0
     = ([None; None; Some C], mkPool [A; B] 2)
  /\ exists x y : SamplePtr,
       ((x = A /\ y = B) \/ (x = B /\ y = A))
       /\ run_calls [Return A; Return B; Return C; Take] this0
          = ([None; None; Some C; Some x], mkPool [y] 2)
       /\ run_calls [Return A; Return B; Return C; Take; Take] this0
          = ([None; None; Some C; Some x; Some y], mkPool [] 2)
       /\ run_calls [Return A; Return B; Return C; Take; Take; Take] this0
          = ([None; None; Some C; Some x; Some y; None], mkPool [] 2).
Proof.
  intros HA HB this0.
  assert (EA : (A =? nullptr) = false) by now apply eqb_nullptr_false.
  assert (EB : (B =? nullptr) = false) by now apply eqb_nullptr_false.
  assert (R1 : step (Return A) this0 = (None, mkPool [A] 2)) by reflexivity.
  assert (R2 : step (Return B) (mkPool [A] 2) = (None, mkPool [A; B] 2))
    by reflexivity.
  assert (R3 : step (Return C) (mkPool [A; B] 2) = (Some C, mkPool [A; B] 2))
    by reflexivity.
  assert (T1 : step Take (mkPool [A; B] 2) = (Some A, mkPool [B] 2)).
  { simpl. now rewrite run_take_sample_cons, EA. }
  assert (T2 : step Take (mkPool [B] 2) = (Some B, mkPool [] 2)).
  { simpl. now rewrite run_take_sample_cons, EB. }
  assert (T3 : step Take (mkPool [] 2) = (None, mkPool [] 2)) by reflexivity.
  repeat split; try (exists A, B; repeat split; [now left | ..]);
    unfold run_calls;
    repeat first [ rewrite R1 | rewrite R2 | rewrite R3
                 | rewrite T1 | rewrite T2 | rewrite T3 ];
    reflexivity.
Qed.

Lemma scenario_capacity_two_witness :
  1 <> nullptr
  /\ 2 <> nullptr
  /\ exists x y : SamplePtr,
       ((x = 1 /\ y = 2) \/ (x = 2 /\ y = 1))
       /\ run_calls [Return 1; Return 2; Return 3; Take; Take; Take]
                    (SynchronizedSamplePool_new 2)
          = ([None; None; Some 3; Some x; Some y; None], mkPool [] 2).
Proof.
  split; [discriminate|]. split; [discriminate|].
  destruct (scenario_capacity_two 1 2 3)
    as (_ & _ & _ & x & y & Hxy & _ & _ & Hrun);
    [discriminate | discriminate |].
  exists x, y. split; assumption.
Defined.

(** C9. Capacity 0: whatever the sequence of calls run on a pool constructed
    with capacity 0, every [return_sample h] is rejected with [h] handed back,
    every [take_sample] answers [nullopt], and the pool never holds a
    handle. *)
Theorem zero_capacity_rejects_everything (cs : list Call) :
  run_calls cs (SynchronizedSamplePool_new 0)
  = (map zero_capacity_answer cs, SynchronizedSamplePool_new 0)
  /\ (forall n : nat,
        pool (snd (run_calls (firstn n cs) (SynchronizedSamplePool_new 0))) = []).
Proof.
  assert (Hrun : forall l : list Call,
             run_calls l (SynchronizedSamplePool_new 0)
             = (map zero_capacity_answer l, SynchronizedSamplePool_new 0)).
  { induction l as [|c l IH]; simpl; [reflexivity|].
    assert (Hstep : step c (SynchronizedSamplePool_new 0)
                    = (zero_capacity_answer c, SynchronizedSamplePool_new 0))
      by (destruct c; reflexivity).
    now rewrite Hstep, IH. }
  split.
  - apply Hrun.
  - intros n. now rewrite Hrun.
Qed.

(** * Distinct handles, one thread *)

Lemma takes_keep_distinct (n : nat) (this : SynchronizedSamplePool) :
  NoDup (pool this) ->
  NoDup (handles (fst (run_calls (repeat Take n) this))
         ++ pool (snd (run_calls (repeat Take n) this)))
  /\ incl (handles (fst (run_calls (repeat Take n) this))
           ++ pool (snd (run_calls (repeat Take n) this)))
          (pool this).
Proof.
  revert this. induction n as [|n IH]; intros this Hnd.
  - simpl. split; [exact Hnd | apply incl_refl].
  - destruct this as [[|x p] cap].
    + specialize (IH (mkPool [] cap) Hnd).
      change (repeat Take (S n)) with (Take :: repeat Take n).
      unfold run_calls; fold run_calls. unfold step.
      rewrite run_take_sample_nil.
      destruct (run_calls (repeat Take n) (mkPool [] cap)) as [rs this'].
      exact IH.
    + simpl in Hnd. inversion Hnd as [|y l Hnotin Hnd']; subst.
      specialize (IH (mkPool p cap) Hnd'). destruct IH as [IHnd IHincl].
      change (repeat Take (S n)) with (Take :: repeat Take n).
      unfold run_calls; fold run_calls. unfold step.
      rewrite run_take_sample_cons.
      destruct (run_calls (repeat Take n) (mkPool p cap)) as [rs this'].
      simpl in IHnd, IHincl. simpl fst. simpl snd. simpl pool.
      destruct (x =? nullptr); simpl handles.
      * split; [exact IHnd | now apply incl_tl].
      * split.
        -- simpl. constructor; [|exact IHnd].
           intros Hin. apply Hnotin. now apply IHincl.
        -- simpl. apply incl_cons; [now left | now apply incl_tl].
Qed.

(** X1. One-thread core of the no-duplication property: on a pool whose
    stored handles are pairwise distinct, any number of [take_sample] calls in
    a row hand out pairwise distinct handles, none of which is still stored
    afterwards, and the handles left in the pool are pairwise distinct. *)
Theorem takes_hand_out_distinct_handles
  (n : nat) (this : SynchronizedSamplePool) :
  NoDup (pool this) ->
  NoDup (handles (fst (run_calls (repeat Take n) this)))
  /\ NoDup (pool (snd (run_calls (repeat Take n) this)))
  /\ (forall h : SamplePtr,
        In h (handles (fst (run_calls (repeat Take n) this))) ->
        ~ In h (pool (snd (run_calls (repeat Take n) this)))).
Proof.
  intros Hnd. destruct (takes_keep_distinct n this Hnd) as [Hall _].
  split; [|split].
  - eapply NoDup_app_remove_r. exact Hall.
  - eapply NoDup_app_remove_l. exact Hall.
  - intros h Hout Hin.
    induction (handles (fst (run_calls (repeat Take n) this))) as [|a l IHl];
      simpl in *; [contradiction|].
    inversion Hall as [|y l' Hnotin Hrest]; subst.
    destruct Hout as [-> | Hout].
    + apply Hnotin. apply in_or_app. now right.
    + now apply IHl.
Qed.

Lemma takes_hand_out_distinct_handles_witness :
  NoDup (pool (mkPool [4; 8; 15] 3))
  /\ NoDup (handles (fst (run_calls (repeat Take 2) (mkPool [4; 8; 15] 3)))).
Proof.
  assert (Hnd : NoDup (pool (mkPool [4; 8; 15] 3))).
  { simpl. repeat constructor; simpl; intuition discriminate. }
  split; [exact Hnd|].
  apply (takes_hand_out_distinct_handles 2 (mkPool [4; 8; 15] 3) Hnd).
Defined.

(** * Conservation of handles *)

Lemma run_calls_cons (c : Call) (cs : list Call) (this : SynchronizedSamplePool) :
  run_calls (c :: cs) this
  = (fst (step c this) :: fst (run_calls cs (snd (step c this))),
     snd (run_calls cs (snd (step c this)))).
Proof.
  simpl. destruct (step c this) as [r this1]; simpl.
  destruct (run_calls cs this1); reflexivity.
Qed.

Lemma run_calls_app (cs1 cs2 : list Call) (this : SynchronizedSamplePool) :
  run_calls (cs1 ++ cs2) this
  = (fst (run_calls cs1 this) ++ fst (run_calls cs2 (snd (run_calls cs1 this))),
     snd (run_calls cs2 (snd (run_calls cs1 this)))).
Proof.
  revert this. induction cs1 as [|c cs1 IH]; intros this.
  - simpl. destruct (run_calls cs2 this); reflexivity.
  - rewrite <- app_comm_cons, !run_calls_cons, IH. reflexivity.
Qed.

Lemma step_take_nil (cap : N) :
  step Take (mkPool [] cap) = (None, mkPool [] cap).
Proof. reflexivity. Qed.

Lemma step_take_cons (x : SamplePtr) (p : moodycamel.ConcurrentQueue) (cap : N) :
  step Take (mkPool (x :: p) cap)
  = (if x =? nullptr then None else Some x, mkPool p cap).
Proof. simpl. apply run_take_sample_cons. Qed.

Lemma step_return_full (h : SamplePtr) (this : SynchronizedSamplePool) :
  capacity this <= occupancy this ->
  step (Return h) this = (Some h, this).
Proof.
  intros Hfull. simpl. unfold run. now rewrite return_sample_full.
Qed.

Lemma step_return_room (h : SamplePtr) (this : SynchronizedSamplePool) :
  occupancy this < capacity this ->
  step (Return h) this = (None, mkPool (pool this ++ [h]) (capacity this)).
Proof.
  intros Hroom. simpl. unfold run. now rewrite return_sample_room.
Qed.

(** X2. Conservation of handles, one thread.  Over any sequence of calls from
    any pool state, a handle other than [nullptr] is neither fabricated, lost
    nor duplicated: it occurs among the initially stored handles and the
    accepted returns exactly as often as among the handles handed out by the
    takes and the handles stored at the end. *)
Theorem handles_are_conserved
  (cs : list Call) (this : SynchronizedSamplePool) (h : SamplePtr) :
  h <> nullptr ->
  count_occ N.eq_dec
    (pool this ++ accepted cs (fst (run_calls cs this))) h
  = count_occ N.eq_dec
      (taken cs (fst (run_calls cs this)) ++ pool (snd (run_calls cs this))) h.
Proof.
  intros Hh. revert this.
  induction cs as [|c cs IH]; intros this.
  - simpl. now rewrite app_nil_r.
  - rewrite run_calls_cons. simpl fst. simpl snd.
    destruct c as [|g].
    + destruct this as [[|x p] cap].
      * rewrite step_take_nil. simpl fst. simpl snd.
        simpl accepted. simpl taken. apply IH.
      * rewrite step_take_cons. simpl fst. simpl snd.
        specialize (IH (mkPool p cap)). simpl pool in IH.
        destruct (N.eqb_spec x nullptr) as [Hx | Hx].
        -- simpl accepted. simpl taken. simpl pool.
           rewrite <- app_comm_cons, count_occ_cons_neq by congruence.
           exact IH.
        -- simpl accepted. simpl taken. simpl pool.
           rewrite <- !app_comm_cons.
           destruct (N.eq_dec x h) as [-> | Hxh].
           ++ rewrite !count_occ_cons_eq by reflexivity. f_equal. exact IH.
           ++ rewrite !count_occ_cons_neq by assumption. exact IH.
    + destruct (full_or_room this) as [Hfull | Hroom].
      * rewrite (step_return_full g this Hfull). simpl fst. simpl snd.
        simpl accepted. simpl taken. apply IH.
      * rewrite (step_return_room g this Hroom). simpl fst. simpl snd.
        specialize (IH (mkPool (pool this ++ [g]) (capacity this))).
        simpl pool in IH. simpl accepted. simpl taken.
        rewrite <- IH, <- app_assoc. reflexivity.
Qed.

Lemma handles_are_conserved_witness :
  7 <> nullptr
  /\ count_occ N.eq_dec
       (pool (mkPool [7] 2)
        ++ accepted [Return 7; Return 9; Take]
             (fst (run_calls [Return 7; Return 9; Take] (mkPool [7] 2)))) 7
     = count_occ N.eq_dec
         (taken [Return 7; Return 9; Take]
            (fst (run_calls [Return 7; Return 9; Take] (mkPool [7] 2)))
          ++ pool (snd (run_calls [Return 7; Return 9; Take] (mkPool [7] 2)))) 7.
Proof.
  split; [discriminate|].
  apply (handles_are_conserved [Return 7; Return 9; Take] (mkPool [7] 2) 7).
  discriminate.
Defined.

(** * Bursts of returns and of takes *)

Lemma run_returns (hs : list SamplePtr) (this : SynchronizedSamplePool) :
  let room := (N.to_nat (capacity this) - length (pool this))%nat in
  run_calls (map Return hs) this
  = (map (fun _ => None) (firstn room hs) ++ map Some (skipn room hs),
     mkPool (pool this ++ firstn room hs) (capacity this)).
Proof.
  cbv zeta. revert this. induction hs as [|h hs IH]; intros this.
  - rewrite firstn_nil, skipn_nil. simpl. rewrite app_nil_r.
    destruct this; reflexivity.
  - change (map Return (h :: hs)) with (Return h :: map Return hs).
    rewrite run_calls_cons.
    destruct (full_or_room this) as [Hfull | Hroom].
    + rewrite (step_return_full h this Hfull). simpl fst. simpl snd.
      rewrite IH.
      assert (Hr : (N.to_nat (capacity this) - length (pool this) = 0)%nat)
        by (unfold occupancy in Hfull; lia).
      rewrite Hr. reflexivity.
    + rewrite (step_return_room h this Hroom). simpl fst. simpl snd.
      rewrite IH. simpl pool. simpl capacity.
      assert (Hr : exists r : nat,
                 (N.to_nat (capacity this) - length (pool this) = S r)%nat
                 /\ (N.to_nat (capacity this) - length (pool this ++ [h]) = r)%nat).
      { exists (N.to_nat (capacity this) - length (pool this) - 1)%nat.
        unfold occupancy in Hroom. rewrite length_app. simpl. lia. }
      destruct Hr as (r & Hr1 & Hr2). rewrite Hr1, Hr2. simpl.
      now rewrite <- app_assoc.
Qed.

(** X3. A burst of returns.  When [return_sample] is called for the handles
    [hs] in a row, the pool accepts as many of the first ones as it has free
    slots (capacity minus occupancy, none when it is full or over) and
    answers [nullopt] to each; every later one is rejected and handed back.
    The store gains exactly the accepted handles and the capacity is
    unchanged; on a pool within its bound the occupancy afterwards is the
    smaller of the capacity and the old occupancy plus the length of the
    burst. *)
Theorem burst_of_returns (hs : list SamplePtr) (this : SynchronizedSamplePool) :
  let room := (N.to_nat (capacity this) - length (pool this))%nat in
  run_calls (map Return hs) this
  = (map (fun _ => None) (firstn room hs) ++ map Some (skipn room hs),
     mkPool (pool this ++ firstn room hs) (capacity this))
  /\ (bounded this ->
      occupancy (snd (run_calls (map Return hs) this))
      = N.min (capacity this) (occupancy this + N.of_nat (length hs))).
Proof.
  cbv zeta. split; [apply run_returns|].
  unfold bounded. intros Hb. rewrite run_returns.
  unfold occupancy in *. simpl snd. simpl pool.
  rewrite length_app, length_firstn. lia.
Qed.

Lemma burst_of_returns_witness :
  run_calls (map Return [7; 8; 9]) (mkPool [5] 3)
  = ([None; None; Some 9], mkPool [5; 7; 8] 3)
  /\ bounded (mkPool [5] 3)
  /\ occupancy (snd (run_calls (map Return [7; 8; 9]) (mkPool [5] 3)))
     = N.min (capacity (mkPool [5] 3))
             (occupancy (mkPool [5] 3) + N.of_nat (length [7; 8; 9])).
Proof.
  assert (Hb : bounded (mkPool [5] 3)) by (vm_compute; discriminate).
  destruct (burst_of_returns [7; 8; 9] (mkPool [5] 3)) as [Hrun Hocc].
  split; [exact Hrun|]. split; [exact Hb | exact (Hocc Hb)].
Defined.

Lemma drain (n : nat) (p : moodycamel.ConcurrentQueue) (cap : N) :
  Forall (fun h : SamplePtr => h <> nullptr) p ->
  run_calls (repeat Take n) (mkPool p cap)
  = (map Some (firstn n p) ++ repeat None (n - length p), mkPool (skipn n p) cap).
Proof.
  revert p. induction n as [|n IH]; intros p Hp.
  - reflexivity.
  - change (repeat Take (S n)) with (Take :: repeat Take n).
    rewrite run_calls_cons. destruct p as [|x p].
    + rewrite step_take_nil. simpl fst. simpl snd.
      rewrite (IH [] Hp), firstn_nil, skipn_nil. simpl.
      now rewrite Nat.sub_0_r.
    + inversion Hp as [|y l Hx Hp']; subst.
      rewrite step_take_cons, (eqb_nullptr_false x Hx). simpl fst. simpl snd.
      rewrite (IH p Hp'). reflexivity.
Qed.

(** X4. Filling and draining.  On a freshly constructed pool of capacity [C],
    returning at most [C] handles, none of them [nullptr], is accepted every
    time; as many takes then hand back exactly those handles, each once, the
    pool is empty again, and one more take answers [nullopt]. *)
Theorem fill_then_drain (hs : list SamplePtr) (C : N) :
  Forall (fun h : SamplePtr => h <> nullptr) hs ->
  N.of_nat (length hs) <= C ->
  exists out : list SamplePtr,
    Permutation out hs
    /\ run_calls (map Return hs ++ repeat Take (length hs) ++ [Take])
                 (SynchronizedSamplePool_new C)
       = (map (fun _ => None) hs ++ map Some out ++ [None],
          SynchronizedSamplePool_new C).
Proof.
  intros Hhs Hlen. exists hs. split; [apply Permutation_refl|].
  rewrite run_calls_app, run_returns. simpl pool. simpl capacity.
  unfold moodycamel.make. rewrite Nat.sub_0_r.
  rewrite firstn_all2, skipn_all2 by lia.
  simpl fst. simpl snd. simpl app at 3 4. rewrite app_nil_r.
  rewrite run_calls_app, (drain (length hs) hs C Hhs).
  simpl fst. simpl snd. rewrite firstn_all, skipn_all, Nat.sub_diag.
  simpl repeat. rewrite app_nil_r. reflexivity.
Qed.

Lemma fill_then_drain_witness :
  Forall (fun h : SamplePtr => h <> nullptr) [3; 5]
  /\ N.of_nat (length [3; 5]) <= 4
  /\ exists out : list SamplePtr,
       Permutation out [3; 5]
       /\ run_calls (map Return [3; 5] ++ repeat Take (length [3; 5]) ++ [Take])
                    (SynchronizedSamplePool_new 4)
          = (map (fun _ => None) [3; 5] ++ map Some out ++ [None],
             SynchronizedSamplePool_new 4).
Proof.
  assert (Hhs : Forall (fun h : SamplePtr => h <> nullptr) [3; 5])
    by (repeat constructor; discriminate).
  assert (Hlen : N.of_nat (length [3; 5]) <= 4) by (vm_compute; discriminate).
  split; [exact Hhs|]. split; [exact Hlen|].
  exact (fill_then_drain [3; 5] 4 Hhs Hlen).
Defined.

(** * Caller discipline *)

Lemma step_null_free (c : Call) (this : SynchronizedSamplePool) :
  Forall (fun h : SamplePtr => h <> nullptr) (pool this) ->
  returns_valid_handle c ->
  Forall (fun h : SamplePtr => h <> nullptr) (pool (snd (step c this))).
Proof.
  intros Hp Hc. destruct c as [|g].
  - destruct this as [[|x p] cap].
    + rewrite step_take_nil. exact Hp.
    + rewrite step_take_cons. simpl in *. now inversion Hp.
  - destruct (full_or_room this) as [Hfull | Hroom].
    + now rewrite step_return_full.
    + rewrite step_return_room by assumption. simpl in *.
      apply Forall_app. split; [exact Hp | now constructor].
Qed.

(** X5. No false "empty" without null returns.  If the store holds no
    [nullptr] and no call of a run passes [nullptr] to [return_sample], then
    the store holds no [nullptr] after the run, and a [take_sample] made then
    answers [nullopt] exactly when the pool is empty. *)
Theorem valid_returns_keep_take_honest
  (cs : list Call) (this : SynchronizedSamplePool) :
  Forall (fun h : SamplePtr => h <> nullptr) (pool this) ->
  Forall returns_valid_handle cs ->
  Forall (fun h : SamplePtr => h <> nullptr) (pool (snd (run_calls cs this)))
  /\ (fst (run take_sample (snd (run_calls cs this))) = None
      <-> pool (snd (run_calls cs this)) = []).
Proof.
  intros Hp Hcs.
  assert (Hfinal : Forall (fun h : SamplePtr => h <> nullptr)
                     (pool (snd (run_calls cs this)))).
  { revert this Hp. induction Hcs as [|c cs Hc Hcs IH]; intros this Hp.
    - exact Hp.
    - rewrite run_calls_cons. simpl snd. apply IH.
      now apply step_null_free. }
  split; [exact Hfinal|].
  destruct (snd (run_calls cs this)) as [[|x p] cap].
  - rewrite run_take_sample_nil. simpl. split; reflexivity.
  - rewrite run_take_sample_cons. simpl in *.
    inversion Hfinal as [|y l Hx _]; subst.
    rewrite (eqb_nullptr_false x Hx). simpl. split; discriminate.
Qed.

Lemma valid_returns_keep_take_honest_witness :
  Forall (fun h : SamplePtr => h <> nullptr) (pool (mkPool [4] 2))
  /\ Forall returns_valid_handle [Return 6; Take]
  /\ (fst (run take_sample (snd (run_calls [Return 6; Take] (mkPool [4] 2))))
      = None
      <-> pool (snd (run_calls [Return 6; Take] (mkPool [4] 2))) = []).
Proof.
  assert (Hp : Forall (fun h : SamplePtr => h <> nullptr) (pool (mkPool [4] 2)))
    by (repeat constructor; discriminate).
  assert (Hcs : Forall returns_valid_handle [Return 6; Take])
    by (repeat constructor; discriminate).
  split; [exact Hp|]. split; [exact Hcs|].
  exact (proj2 (valid_returns_keep_take_honest [Return 6; Take] (mkPool [4] 2)
                  Hp Hcs)).
Defined.

(** X6. No duplicate detection.  [return_sample] does not look for its
    argument in the store: on an empty pool of capacity at least 2, returning
    the same handle (other than [nullptr]) twice is accepted twice, and the
    next two takes both hand out that handle. *)
Theorem handle_returned_twice_is_issued_twice
  (h : SamplePtr) (this : SynchronizedSamplePool) :
  h <> nullptr ->
  pool this = [] ->
  2 <= capacity this ->
  run_calls [Return h; Return h; Take; Take] this
  = ([None; None; Some h; Some h], this).
Proof.
  intros Hh Hempty Hcap. destruct this as [p cap].
  simpl in Hempty, Hcap. subst p.
  change [Return h; Return h; Take; Take]
    with (map Return [h; h] ++ repeat Take 2).
  assert (Hfill : run_calls (map Return [h; h]) (mkPool [] cap)
                  = ([None; None], mkPool [h; h] cap)).
  { rewrite run_returns. simpl pool. simpl capacity.
    rewrite Nat.sub_0_r, firstn_all2, skipn_all2 by (simpl; lia).
    reflexivity. }
  assert (Hdrain : run_calls (repeat Take 2) (mkPool [h; h] cap)
                   = ([Some h; Some h], mkPool [] cap)).
  { rewrite drain by (repeat constructor; assumption). reflexivity. }
  rewrite run_calls_app, Hfill. cbn [fst snd]. rewrite Hdrain. reflexivity.
Qed.

Lemma handle_returned_twice_is_issued_twice_witness :
  8 <> nullptr
  /\ pool (SynchronizedSamplePool_new 2) = []
  /\ 2 <= capacity (SynchronizedSamplePool_new 2)
  /\ run_calls [Return 8; Return 8; Take; Take] (SynchronizedSamplePool_new 2)
     = ([None; None; Some 8; Some 8], SynchronizedSamplePool_new 2).
Proof.
  split; [discriminate|]. split; [reflexivity|].
  split; [vm_compute; discriminate|].
  apply (handle_returned_twice_is_issued_twice 8 (SynchronizedSamplePool_new 2)).
  - discriminate.
  - reflexivity.
  - vm_compute; discriminate.
Defined.

(** X7. A take frees a slot.  On a pool that is not empty and within its
    bound, a [take_sample] (whatever it answers) followed by
    [return_sample h] is always accepted, and the occupancy is then what it
    was before the take. *)
Theorem take_frees_a_slot (h : SamplePtr) (this : SynchronizedSamplePool) :
  pool this <> [] ->
  bounded this ->
  fst (run (return_sample h) (snd (run take_sample this))) = None
  /\ occupancy (snd (run (return_sample h) (snd (run take_sample this))))
     = occupancy this.
Proof.
  intros Hne Hb. destruct this as [[|x p] cap]; [contradiction|].
  rewrite run_take_sample_cons. simpl snd.
  unfold bounded, occupancy in Hb; simpl in Hb.
  assert (Hroom : occupancy (mkPool p cap) < capacity (mkPool p cap))
    by (unfold occupancy; simpl; lia).
  unfold run. rewrite (return_sample_room h _ Hroom). simpl fst. simpl snd.
  split; [reflexivity|].
  simpl pool. simpl capacity. rewrite occupancy_snoc.
  unfold occupancy; simpl. lia.
Qed.

Lemma take_frees_a_slot_witness :
  pool (mkPool [5; 6] 2) <> []
  /\ bounded (mkPool [5; 6] 2)
  /\ fst (run (return_sample 9) (snd (run take_sample (mkPool [5; 6] 2)))) = None
  /\ occupancy (snd (run (return_sample 9) (snd (run take_sample (mkPool [5; 6] 2)))))
     = occupancy (mkPool [5; 6] 2).
Proof.
  assert (Hne : pool (mkPool [5; 6] 2) <> []) by discriminate.
  assert (Hb : bounded (mkPool [5; 6] 2)) by (vm_compute; discriminate).
  split; [exact Hne|]. split; [exact Hb|].
  exact (take_frees_a_slot 9 (mkPool [5; 6] 2) Hne Hb).
Defined.

Lemma step_keeps_distinct (c : Call) (this : SynchronizedSamplePool) :
  NoDup (pool this) ->
  match c with
  | Take => True
  | Return sample => ~ In sample (pool this)
  end ->
  NoDup (pool (snd (step c this))).
Proof.
  intros Hnd Hc. destruct c as [|g].
  - destruct this as [[|x p] cap].
    + rewrite step_take_nil. exact Hnd.
    + rewrite step_take_cons. simpl in *. now inversion Hnd.
  - destruct (full_or_room this) as [Hfull | Hroom].
    + now rewrite step_return_full.
    + rewrite step_return_room by assumption. simpl.
      apply NoDup_app.
      * exact Hnd.
      * constructor; [intros [] | constructor].
      * intros a Ha [<- | []]. now apply Hc.
Qed.

(** X8. No double issue under caller discipline, one thread.  Starting from a
    store without duplicates, if no [return_sample] of a run is given a handle
    that is resting in the pool at that moment, then the store has no
    duplicates after the run, and any number of takes made then hand out
    pairwise distinct handles. *)
Theorem disciplined_runs_never_double_issue
  (cs : list Call) (n : nat) (this : SynchronizedSamplePool) :
  NoDup (pool this) ->
  returns_only_checked_out cs this ->
  NoDup (pool (snd (run_calls cs this)))
  /\ NoDup (handles (fst (run_calls (repeat Take n) (snd (run_calls cs this))))).
Proof.
  intros Hnd Hcs.
  assert (Hfinal : NoDup (pool (snd (run_calls cs this)))).
  { revert this Hnd Hcs. induction cs as [|c cs IH]; intros this Hnd Hcs.
    - exact Hnd.
    - destruct Hcs as [Hc Hcs]. rewrite run_calls_cons. simpl snd.
      apply IH; [|exact Hcs]. now apply step_keeps_distinct. }
  split; [exact Hfinal|].
  destruct (takes_keep_distinct n _ Hfinal) as [Hall _].
  eapply NoDup_app_remove_r. exact Hall.
Qed.

Lemma disciplined_runs_never_double_issue_witness :
  NoDup (pool (mkPool [4] 3))
  /\ returns_only_checked_out [Return 6; Take; Return 4] (mkPool [4] 3)
  /\ NoDup (pool (snd (run_calls [Return 6; Take; Return 4] (mkPool [4] 3))))
  /\ NoDup (handles (fst (run_calls (repeat Take 2)
                            (snd (run_calls [Return 6; Take; Return 4]
                                            (mkPool [4] 3)))))).
Proof.
  assert (Hnd : NoDup (pool (mkPool [4] 3))).
  { simpl. repeat constructor. intros []. }
  assert (Hcs : returns_only_checked_out [Return 6; Take; Return 4] (mkPool [4] 3)).
  { vm_compute. repeat split; intuition discriminate. }
  split; [exact Hnd|]. split; [exact Hcs|].
  exact (disciplined_runs_never_double_issue
           [Return 6; Take; Return 4] 2 (mkPool [4] 3) Hnd Hcs).
Defined.

(** X9. The capacity is fixed at construction.  No sequence of
    [take_sample] and [return_sample] calls changes the capacity of a pool;
    in particular a pool constructed with capacity [C] has capacity [C] after
    every run. *)
Theorem capacity_never_changes (cs : list Call) :
  (forall this : SynchronizedSamplePool,
      capacity (snd (run_calls cs this)) = capacity this)
  /\ (forall C : N,
        capacity (snd (run_calls cs (SynchronizedSamplePool_new C))) = C).
Proof.
  split.
  - intros this. apply run_calls_capacity.
  - intros C. now rewrite run_calls_capacity.
Qed.
